(** * sql-ast statements: rendering and dependency extraction

    A shallow embedding of [statements.go] (package [sql_ast]): the seven
    statement nodes, their [String], [dependedOn] and [solved] methods, and
    the properties the specification states about them.

    Conventions of the embedding.
    - Go strings are byte strings: [string].
    - A call either returns or panics: [outcome].
    - An interface value that may be [nil] is an [option]; pointers to
      structs that the code never tests against [nil] are the struct itself.
    - A slice is a [list]; the [nil] slice and the empty slice are both [[]].
    - [map[string]SqlExpr] is a [gmap string SqlExpr]; a [for ... range]
      over it visits the entries in an order the language leaves open, so
      the loop takes the visiting order as an explicit argument. *)

From Stdlib Require Import String Ascii List.
From stdpp Require Import base strings list gmap fin_maps.

Local Open Scope string_scope.
Local Open Scope list_scope.

(** ** Outcome of a call *)

Inductive outcome (A : Type) : Type :=
| Returned (a : A)
| Panicked (msg : string).

Arguments Returned {A} a.
Arguments Panicked {A} msg.

#[global] Instance outcome_ret : MRet outcome := fun A a => Returned a.

#[global] Instance outcome_bind : MBind outcome := fun A B k x =>
  match x with
  | Returned a => k a
  | Panicked m => Panicked m
  end.

Definition panics {A} (x : outcome A) : Prop := exists m, x = Panicked m.

(** The message of the run-time panic raised by a method call through a
    [nil] interface value. *)
Definition nil_dereference : string :=
  "runtime error: invalid memory address or nil pointer dereference".

(** ** The parts of the Go library the file uses *)

(** [strings.Split(s, sep)] for a one-byte separator: the pieces of [s]
    between the occurrences of [sep]; never empty ([Split "" sep = [""]]). *)
Fixpoint Split (s : string) (sep : ascii) : list string :=
  match s with
  | EmptyString => [EmptyString]
  | String c s' =>
      if Ascii.eqb c sep then EmptyString :: Split s' sep
      else match Split s' sep with
           | piece :: pieces => String c piece :: pieces
           | [] => [String c EmptyString]
           end
  end.

(** [strings.Join(elems, sep)]. *)
Fixpoint Join (elems : list string) (sep : string) : string :=
  match elems with
  | [] => ""
  | [e] => e
  | e :: rest => e +:+ sep +:+ Join rest sep
  end.

(** [fmt.Sprintf] for formats whose only verb is [%s], with the operands
    already converted to text. *)
Fixpoint Sprintf (format : string) (args : list string) : string :=
  match format with
  | EmptyString => ""
  | String c rest =>
      match rest with
      | String d rest' =>
          if (Ascii.eqb c "%" && Ascii.eqb d "s")%bool then
            match args with
            | a :: args' => a +:+ Sprintf rest' args'
            | [] => "%!s(MISSING)" +:+ Sprintf rest' []
            end
          else String c (Sprintf rest args)
      | EmptyString => String c ""
      end
  end.

(** Modelled from the spec: [utils.NonEmptyStringsConcatSpaceSeparated]
    lives in another package. Its operands are tokens, [None] for a [nil]
    operand; empty and absent tokens are omitted and the others are joined
    with single spaces. *)
Definition nonEmptyTokens (tokens : list (option string)) : list string :=
  filter (fun t => t <> "") (omap id tokens).

Definition NonEmptyStringsConcatSpaceSeparated (tokens : list (option string)) : string :=
  Join (nonEmptyTokens tokens) " ".

(** ** Data model *)

(** Modelled from the spec: the declaration of [SqlTarget] is in another
    file of the package; an enumeration of the object kinds, each rendered
    as its noun. *)
Inductive SqlTarget : Type :=
| TargetSchema
| TargetTable
| TargetColumn
| TargetConstraint
| TargetIndex.

#[global] Instance SqlTarget_eq_dec : EqDecision SqlTarget.
Proof. solve_decision. Defined.

Definition SqlTarget_String (t : SqlTarget) : string :=
  match t with
  | TargetSchema => "schema"
  | TargetTable => "table"
  | TargetColumn => "column"
  | TargetConstraint => "constraint"
  | TargetIndex => "index"
  end.

(** Modelled from the spec: the interface [SqlIdent] has two
    implementations, a plain name and the qualified [*Selector]; [GetName]
    is the identifier's own name, the rightmost component of a selector. *)
Inductive SqlIdent : Type :=
| PlainName (Name : string)
| Selector (Container Name : string).

Definition GetName (i : SqlIdent) : string :=
  match i with
  | PlainName n => n
  | Selector _ n => n
  end.

(** Modelled from the spec: [NamedObject] is the triple of schema, object
    and field, [Dependencies] an ordered sequence of them. *)
Record NamedObject : Type := mkNamedObject {
  Schema : string;
  Object : string;
  Field : string
}.

Definition Dependencies : Type := list NamedObject.

(** Modelled from the spec: the helpers [dependedOn3], [dependedOn2] and
    [concatDependencies] are declared next to [Dependencies]; the first two
    build the sequence holding one key, the third appends two sequences. *)
Definition dependedOn3 (schema object field : string) : Dependencies :=
  [mkNamedObject schema object field].

Definition dependedOn2 (schema object : string) : Dependencies :=
  [mkNamedObject schema object ""].

Definition concatDependencies (a b : Dependencies) : Dependencies := a ++ b.

(** Modelled from the spec: the interface [SqlExpr]. A value is its dynamic
    type, the one thing [statements.go] inspects, together with what its
    methods [String] and [dependedOn] return. [*AddExpr] carries the name of
    the added column, [*TableBodyDescriber] the column descriptors in
    declaration order. *)
Record FieldDescriber : Type := mkField { FieldName : SqlIdent }.

Inductive ExprType : Type :=
| AddExpr (Name : SqlIdent)
| TableBodyDescriber (Fields : list FieldDescriber)
| OtherExpr.

Record SqlExpr : Type := mkExpr {
  dynType : ExprType;
  exprText : string;
  exprDeps : Dependencies
}.

Definition SqlExpr_String (e : SqlExpr) : string := exprText e.
Definition SqlExpr_dependedOn (e : SqlExpr) : Dependencies := exprDeps e.

Module TableDesc.

Record t : Type := mk {
  Table : SqlIdent;
  Alias : string
}.

End TableDesc.

(** ** Statements *)

Module AlterStmt.

Record t : Type := mk {
  Target : SqlTarget;
  Name : SqlIdent;
  Alter : option SqlExpr
}.

Definition String (c : t) : outcome string :=
  match Alter c with
  | Some alter =>
      Returned (Sprintf "alter %s %s %s"
                  [SqlTarget_String (Target c); GetName (Name c); SqlExpr_String alter])
  | None => Panicked nil_dereference
  end.

Definition dependedOn (c : t) : outcome Dependencies :=
  match Alter c with
  | Some alter => Returned (SqlExpr_dependedOn alter)
  | None => Panicked nil_dereference
  end.

Definition solved (c : t) : outcome Dependencies :=
  '(s, o) ←
    match Name c with
    | Selector container name => Returned (container, name)
    | PlainName _ =>
        let n := Split (GetName (Name c)) "." in
        if decide (1 < length n) then Returned (nth 0 n "", nth 1 n "")
        else if decide (Target c = TargetSchema) then Returned (GetName (Name c), "")
        else Panicked ("cannot resolve schema for `" +:+ GetName (Name c) +:+ "`")
    end;
  let f :=
    match Alter c with
    | Some {| dynType := AddExpr name |} => GetName name
    | _ => ""
    end in
  Returned (dependedOn3 s o f).

End AlterStmt.

Module CreateStmt.

Record t : Type := mk {
  Target : SqlTarget;
  Name : SqlIdent;
  Create : option SqlExpr;
  IfNotX : bool
}.

Definition String (c : t) : string :=
  let ifNotExists := if IfNotX c then "if not exists" else "" in
  if decide (Target c = TargetConstraint) then
    NonEmptyStringsConcatSpaceSeparated
      [Some "create"; SqlExpr_String <$> Create c]
  else
    NonEmptyStringsConcatSpaceSeparated
      [Some "create"; Some (SqlTarget_String (Target c)); Some ifNotExists;
       Some (GetName (Name c)); SqlExpr_String <$> Create c].

Definition dependedOn (c : t) : Dependencies :=
  match Create c with
  | Some create => SqlExpr_dependedOn create
  | None => []
  end.

Definition solved (c : t) : outcome Dependencies :=
  '(s, o) ←
    match Name c with
    | Selector container name => Returned (container, name)
    | PlainName _ =>
        let n := Split (GetName (Name c)) "." in
        if decide (1 < length n) then Returned (nth 0 n "", nth 1 n "")
        else if decide (Target c = TargetSchema) then Returned (GetName (Name c), "")
        else Panicked ("cannot resolve schema for `" +:+ GetName (Name c) +:+ "`")
    end;
  let result := dependedOn2 s o in
  Returned
    match Create c with
    | Some {| dynType := TableBodyDescriber fields |} =>
        fold_left
          (fun result f =>
             concatDependencies result (dependedOn3 s o (GetName (FieldName f))))
          fields result
    | _ => result
    end.

End CreateStmt.

Module DropStmt.

Record t : Type := mk {
  Target : SqlTarget;
  Name : SqlIdent
}.

Definition String (c : t) : string :=
  NonEmptyStringsConcatSpaceSeparated
    [Some "drop"; Some (SqlTarget_String (Target c)); Some (GetName (Name c))].

Definition dependedOn (c : t) : Dependencies := [].

Definition solved (c : t) : Dependencies := [].

End DropStmt.

Module UpdateStmt.

Record t : Type := mk {
  Table : TableDesc.t;
  Set_ : list SqlExpr;
  Where : option SqlExpr
}.

Definition String (c : t) : string :=
  let clauseSet :=
    fold_left (fun clauseSet set => clauseSet ++ [SqlExpr_String set]) (Set_ c) [] in
  let clauseWhere :=
    match Where c with
    | Some where_ => SqlExpr_String where_
    | None => "1 = 1"
    end in
  Sprintf "update %s %s set %s where %s"
    [GetName (TableDesc.Table (Table c)); TableDesc.Alias (Table c); Join clauseSet ", "; clauseWhere].

Definition dependedOn (c : t) : Dependencies :=
  fold_left (fun result s => concatDependencies result (SqlExpr_dependedOn s)) (Set_ c) [].

Definition solved (c : t) : Dependencies := [].

End UpdateStmt.

Module OnConflict.

Record t : Type := mk {
  Cause : option SqlExpr;
  Set_ : list SqlExpr
}.

(** The receiver is a pointer that may be [nil]. [%s] prints a [nil]
    interface operand as [%!s(<nil>)]. *)
Definition String (c : option t) : string :=
  match c with
  | None => ""
  | Some c =>
      let valuesList :=
        fold_left (fun valuesList s => valuesList ++ [SqlExpr_String s]) (Set_ c) [] in
      Sprintf "on conflict %s do update set %s"
        [from_option SqlExpr_String "%!s(<nil>)" (Cause c); Join valuesList ", "]
  end.

End OnConflict.

Module InsertStmt.

Record t : Type := mk {
  Table : TableDesc.t;
  Insert : gmap string SqlExpr;
  OnConflict : option OnConflict.t
}.

(** The orders in which [for f, s := range m] may visit the entries of
    [m]: every entry once, in any order. *)
Definition rangeOrder (m : gmap string SqlExpr) (order : list (string * SqlExpr)) : Prop :=
  order ≡ₚ map_to_list m.

(** The two slices the loop of [String] builds when it visits the entries
    in [order]. *)
Definition lists (order : list (string * SqlExpr)) : list string * list string :=
  fold_left
    (fun '(fieldsList, valuesList) '(f, s) =>
       (fieldsList ++ [f], valuesList ++ [SqlExpr_String s]))
    order ([], []).

Definition String (c : t) (order : list (string * SqlExpr)) : string :=
  let '(fieldsList, valuesList) := lists order in
  Sprintf "insert into %s (%s) values (%s) %s"
    [GetName (TableDesc.Table (Table c));
     Join fieldsList ", ";
     Join valuesList ", ";
     OnConflict.String (OnConflict c)].

(** [text] is a possible result of [c.String()]. *)
Definition renders (c : t) (text : string) : Prop :=
  exists order, rangeOrder (Insert c) order /\ String c order = text.

Definition dependedOn (c : t) : Dependencies :=
  [ {| Schema := ""; Object := GetName (TableDesc.Table (Table c)); Field := "" |} ].

Definition solved (c : t) : Dependencies := [].

End InsertStmt.

Module SelectStmt.

Record t : Type := mk {
  Columns : list SqlExpr;
  From : TableDesc.t;
  Where : option SqlExpr
}.

Definition String (c : t) : string :=
  let clauseColumns :=
    fold_left (fun clauseColumns col => clauseColumns ++ [SqlExpr_String col])
      (Columns c) [] in
  let clauseWhere :=
    match Where c with
    | Some where_ => SqlExpr_String where_
    | None => "1 = 1"
    end in
  Sprintf "select %s from %s %s where %s"
    [Join clauseColumns ", "; GetName (TableDesc.Table (From c)); TableDesc.Alias (From c); clauseWhere].

Definition dependedOn (c : t) : Dependencies := [].

Definition solved (c : t) : Dependencies := [].

End SelectStmt.

(** [WithStmt.String] hands the two [SelectStmt] values to [fmt], which
    prints them field by field; only the dependency methods are embedded. *)
Module WithStmt.

Record t : Type := mk {
  Name : string;
  With : SelectStmt.t;
  Select : SelectStmt.t
}.

Definition dependedOn (c : t) : Dependencies :=
  SelectStmt.dependedOn (Select c) ++ SelectStmt.dependedOn (With c).

Definition solved (c : t) : Dependencies :=
  SelectStmt.solved (Select c) ++ SelectStmt.solved (With c).

End WithStmt.

(** ** Vocabulary of the properties *)

(** [strings.Contains] for a one-byte pattern. *)
Fixpoint contains (s : string) (c : ascii) : bool :=
  match s with
  | EmptyString => false
  | String a s' => Ascii.eqb a c || contains s' c
  end.

(** The text before the first [sep] (all of [s] when there is none) and the
    text after it. *)
Fixpoint beforeSep (s : string) (sep : ascii) : string :=
  match s with
  | EmptyString => ""
  | String a s' => if Ascii.eqb a sep then "" else String a (beforeSep s' sep)
  end.

Fixpoint afterSep (s : string) (sep : ascii) : string :=
  match s with
  | EmptyString => ""
  | String a s' => if Ascii.eqb a sep then s' else afterSep s' sep
  end.

(** The block that opens both [AlterStmt.solved] and [CreateStmt.solved]:
    the schema and the object the statement's name stands for. *)
Definition resolveName (target : SqlTarget) (name : SqlIdent) : outcome (string * string) :=
  match name with
  | Selector container name => Returned (container, name)
  | PlainName _ =>
      let n := Split (GetName name) "." in
      if decide (1 < length n) then Returned (nth 0 n "", nth 1 n "")
      else if decide (target = TargetSchema) then Returned (GetName name, "")
      else Panicked ("cannot resolve schema for `" +:+ GetName name +:+ "`")
  end.

(** The field of the key an [AlterStmt] solves. *)
Definition addedField (alter : option SqlExpr) : string :=
  match alter with
  | Some {| dynType := AddExpr name |} => GetName name
  | _ => ""
  end.

(** Blank-related defects of a rendered text. *)
Definition isSpace (c : ascii) : bool := Ascii.eqb c " ".

Definition startsWithSpace (s : string) : bool :=
  match s with
  | String a _ => isSpace a
  | EmptyString => false
  end.

Fixpoint endsWithSpace (s : string) : bool :=
  match s with
  | EmptyString => false
  | String a EmptyString => isSpace a
  | String _ s' => endsWithSpace s'
  end.

Fixpoint hasDoubleSpace (s : string) : bool :=
  match s with
  | EmptyString => false
  | String a s' => (isSpace a && startsWithSpace s') || hasDoubleSpace s'
  end.

(** No leading blank, no trailing blank, no two blanks in a row. *)
Definition tidy (s : string) : Prop :=
  startsWithSpace s = false /\ endsWithSpace s = false /\ hasDoubleSpace s = false.

(** ** Sample statements *)

Definition columns_a_b : SqlExpr :=
  mkExpr (TableBodyDescriber [mkField (PlainName "a"); mkField (PlainName "b")]) "" [].

Definition add_column_f : SqlExpr :=
  mkExpr (AddExpr (PlainName "f")) "add column f text" [].

Definition create_users : CreateStmt.t :=
  CreateStmt.mk TargetTable (PlainName "users") None false.

Definition create_public_users : CreateStmt.t :=
  CreateStmt.mk TargetTable (PlainName "public.users") (Some columns_a_b) true.

Definition create_three_parts : CreateStmt.t :=
  CreateStmt.mk TargetTable (PlainName "a.b.c") None false.

Definition create_constraint : CreateStmt.t :=
  CreateStmt.mk TargetConstraint (PlainName "users_pk")
    (Some (mkExpr OtherExpr "constraint users_pk primary key (id)" [])) false.

Definition alter_add_column : AlterStmt.t :=
  AlterStmt.mk TargetTable (PlainName "s.o") (Some add_column_f).

Definition insert_public_users : InsertStmt.t :=
  InsertStmt.mk (TableDesc.mk (Selector "public" "users") "") ∅ None.

Definition insert_dotted_users : InsertStmt.t :=
  InsertStmt.mk (TableDesc.mk (PlainName "public.users") "") ∅ None.

Definition update_no_alias : UpdateStmt.t :=
  UpdateStmt.mk (TableDesc.mk (PlainName "t") "") [mkExpr OtherExpr "a = 1" []] None.

Definition select_no_alias : SelectStmt.t :=
  SelectStmt.mk [mkExpr OtherExpr "a" []] (TableDesc.mk (PlainName "t") "") None.

Definition alter_empty_text : AlterStmt.t :=
  AlterStmt.mk TargetTable (PlainName "public.users") (Some (mkExpr OtherExpr "" [])).

Definition drop_public_users : DropStmt.t :=
  DropStmt.mk TargetTable (PlainName "public.users").

Definition insert_one_field : InsertStmt.t :=
  InsertStmt.mk (TableDesc.mk (PlainName "t") "")
    {[ "a" := mkExpr OtherExpr "1" [] ]} None.

Definition insert_two_fields : InsertStmt.t :=
  InsertStmt.mk (TableDesc.mk (PlainName "t") "")
    (<[ "a" := mkExpr OtherExpr "1" [] ]> {[ "b" := mkExpr OtherExpr "2" [] ]}) None.

(** A token with the blank that separates it from what precedes it; nothing
    for an empty token. *)
Definition spaced (t : string) : string :=
  if decide (t = "") then "" else " " +:+ t.

(** The tokens that follow the first one in a space-separated rendering. *)
Definition spacedTokens (tokens : list (option string)) : string :=
  foldr (fun t rest => spaced (default "" t) +:+ rest) "" tokens.

(** The columns a Create statement declares. *)
Definition declaredColumns (create : option SqlExpr) : list FieldDescriber :=
  match create with
  | Some {| dynType := TableBodyDescriber fields |} => fields
  | _ => []
  end.

Definition create_schema_app : CreateStmt.t :=
  CreateStmt.mk TargetSchema (PlainName "app") None false.

Definition create_selector_users : CreateStmt.t :=
  CreateStmt.mk TargetTable (Selector "public" "users.v2") (Some columns_a_b) false.

Definition alter_no_expression : AlterStmt.t :=
  AlterStmt.mk TargetTable (PlainName "public.users") None.

Definition update_two_sets : UpdateStmt.t :=
  UpdateStmt.mk (TableDesc.mk (PlainName "t") "x")
    [mkExpr OtherExpr "a = 1" [mkNamedObject "s" "t" "a"];
     mkExpr OtherExpr "b = 2" [mkNamedObject "s" "t" "b"; mkNamedObject "s" "u" ""]]
    (Some (mkExpr OtherExpr "c > 0" [mkNamedObject "s" "t" "c"])).

Definition select_with_alias : SelectStmt.t :=
  SelectStmt.mk [mkExpr OtherExpr "a" []; mkExpr OtherExpr "b" []]
    (TableDesc.mk (PlainName "t") "x") None.

Definition insert_nothing : InsertStmt.t :=
  InsertStmt.mk (TableDesc.mk (PlainName "t") "") ∅
    (Some (OnConflict.mk (Some (mkExpr OtherExpr "(id)" [])) [mkExpr OtherExpr "a = 1" []])).

Definition create_blank_schema_users : CreateStmt.t :=
  CreateStmt.mk TargetTable (Selector "" "users") None false.

(** One goal per token of a rendering. *)
Ltac each_token :=
  repeat (apply Forall_cons; split); try (apply Forall_nil; exact I).

(** ** Lemmas on the library functions *)

Section SplitFacts.

Variable sep : ascii.

Lemma Split_cons (s : string) :
  Split s sep =
  beforeSep s sep :: (if contains s sep then Split (afterSep s sep) sep else []).
Proof.
  induction s as [|a s IH]; simpl; [reflexivity|].
  destruct (Ascii.eqb a sep); simpl; [reflexivity|].
  rewrite IH. reflexivity.
Qed.

Lemma Split_length (s : string) :
  1 < length (Split s sep) <-> contains s sep = true.
Proof.
  rewrite Split_cons. destruct (contains s sep); simpl.
  - rewrite Split_cons. simpl. split; [reflexivity | lia].
  - split; [lia | discriminate].
Qed.

Lemma Split_nth_0 (s : string) : nth 0 (Split s sep) "" = beforeSep s sep.
Proof. rewrite Split_cons. reflexivity. Qed.

Lemma Split_nth_1 (s : string) :
  contains s sep = true ->
  nth 1 (Split s sep) "" = beforeSep (afterSep s sep) sep.
Proof.
  intros H. rewrite Split_cons, H. simpl. apply Split_nth_0.
Qed.

Lemma beforeSep_none (s : string) : contains s sep = false -> beforeSep s sep = s.
Proof.
  induction s as [|a s IH]; simpl; [reflexivity|].
  destruct (Ascii.eqb a sep); simpl; [discriminate|].
  intros H. rewrite IH; auto.
Qed.

Lemma contains_app (s r : string) :
  contains (s +:+ r) sep = contains s sep || contains r sep.
Proof.
  induction s as [|a s IH]; simpl; [reflexivity|].
  rewrite IH. apply orb_assoc.
Qed.

Lemma beforeSep_app (s r : string) :
  contains s sep = false -> beforeSep (s +:+ String sep r) sep = s.
Proof.
  induction s as [|a s IH]; simpl.
  - rewrite Ascii.eqb_refl. reflexivity.
  - destruct (Ascii.eqb a sep); simpl; [discriminate|].
    intros H. rewrite IH; auto.
Qed.

Lemma afterSep_app (s r : string) :
  contains s sep = false -> afterSep (s +:+ String sep r) sep = r.
Proof.
  induction s as [|a s IH]; simpl.
  - rewrite Ascii.eqb_refl. reflexivity.
  - destruct (Ascii.eqb a sep); simpl; [discriminate|]. exact IH.
Qed.

End SplitFacts.

(** ** Name resolution *)

Lemma AlterStmt_solved_resolve (c : AlterStmt.t) :
  AlterStmt.solved c =
  '(s, o) ← resolveName (AlterStmt.Target c) (AlterStmt.Name c);
  Returned (dependedOn3 s o (addedField (AlterStmt.Alter c))).
Proof. destruct c as [tg [n|k n] a]; reflexivity. Qed.

Lemma CreateStmt_solved_resolve (c : CreateStmt.t) :
  CreateStmt.solved c =
  '(s, o) ← resolveName (CreateStmt.Target c) (CreateStmt.Name c);
  Returned
    match CreateStmt.Create c with
    | Some {| dynType := TableBodyDescriber fields |} =>
        fold_left
          (fun result f =>
             concatDependencies result (dependedOn3 s o (GetName (FieldName f))))
          fields (dependedOn2 s o)
    | _ => dependedOn2 s o
    end.
Proof. destruct c as [tg [n|k n] a x]; reflexivity. Qed.

Lemma resolveName_plain (target : SqlTarget) (n : string) :
  resolveName target (PlainName n) =
  if contains n "." then Returned (beforeSep n ".", beforeSep (afterSep n ".") ".")
  else if decide (target = TargetSchema) then Returned (n, "")
  else Panicked ("cannot resolve schema for `" +:+ n +:+ "`").
Proof.
  unfold resolveName. simpl GetName.
  destruct (contains n ".") eqn:E.
  - destruct (decide _) as [_|H]; [|exfalso; apply H, Split_length, E].
    rewrite Split_nth_0, Split_nth_1 by exact E. reflexivity.
  - destruct (decide (1 < _)) as [H|_]; [|reflexivity].
    apply Split_length in H. congruence.
Qed.

Lemma fold_left_snoc {A B : Type} (k : A -> B) (l : list A) (init : list B) :
  fold_left (fun acc x => acc ++ [k x]) l init = init ++ map k l.
Proof.
  revert init. induction l as [|x l IH]; intros init; simpl.
  - symmetry. apply app_nil_r.
  - rewrite IH, <- app_assoc. reflexivity.
Qed.

Lemma CreateStmt_solved_keys (c : CreateStmt.t) (s o : string) :
  resolveName (CreateStmt.Target c) (CreateStmt.Name c) = Returned (s, o) ->
  CreateStmt.solved c =
  Returned
    (mkNamedObject s o "" ::
     match CreateStmt.Create c with
     | Some {| dynType := TableBodyDescriber fields |} =>
         map (fun f => mkNamedObject s o (GetName (FieldName f))) fields
     | _ => []
     end).
Proof.
  intros H. rewrite CreateStmt_solved_resolve, H. simpl.
  destruct (CreateStmt.Create c) as [[[ | fields | ] ? ?]|]; try reflexivity.
  unfold concatDependencies, dependedOn3, dependedOn2.
  rewrite (fold_left_snoc (fun f => mkNamedObject s o (GetName (FieldName f)))).
  reflexivity.
Qed.

Lemma resolveName_two_parts (target : SqlTarget) (s o : string) :
  contains s "." = false -> contains o "." = false ->
  resolveName target (PlainName (s +:+ "." +:+ o)) = Returned (s, o).
Proof.
  intros Hs Ho. rewrite resolveName_plain.
  change (s +:+ "." +:+ o) with (s +:+ String "." o).
  rewrite contains_app. simpl. rewrite orb_true_r.
  rewrite beforeSep_app, afterSep_app, beforeSep_none by assumption.
  reflexivity.
Qed.

Lemma resolveName_unqualified (target : SqlTarget) (n : string) :
  contains n "." = false -> target <> TargetSchema ->
  resolveName target (PlainName n) =
  Panicked ("cannot resolve schema for `" +:+ n +:+ "`").
Proof.
  intros Hn Ht. rewrite resolveName_plain, Hn.
  destruct (decide (target = TargetSchema)); [contradiction | reflexivity].
Qed.

(** ** Unresolvable names *)

(** C1, as the code has it: for every Alter or Create statement whose Name
    is a plain identifier without ['.'] and whose Target is not the schema
    target, [solved] panics, and the panic message is
    [cannot resolve schema for `name`], carrying the literal name. *)
Theorem solved_unqualified_panics (target : SqlTarget) (n : string) :
  contains n "." = false ->
  target <> TargetSchema ->
  (forall alter,
      AlterStmt.solved (AlterStmt.mk target (PlainName n) alter) =
      Panicked ("cannot resolve schema for `" +:+ n +:+ "`")) /\
  (forall create ifNotX,
      CreateStmt.solved (CreateStmt.mk target (PlainName n) create ifNotX) =
      Panicked ("cannot resolve schema for `" +:+ n +:+ "`")).
Proof.
  intros Hn Ht. split; intros.
  - rewrite AlterStmt_solved_resolve. cbn [AlterStmt.Target AlterStmt.Name].
    rewrite resolveName_unqualified by assumption. reflexivity.
  - rewrite CreateStmt_solved_resolve. cbn [CreateStmt.Target CreateStmt.Name].
    rewrite resolveName_unqualified by assumption. reflexivity.
Qed.

Lemma solved_unqualified_panics_witness :
  contains "users" "." = false /\
  TargetTable <> TargetSchema /\
  CreateStmt.solved create_users = Panicked "cannot resolve schema for `users`".
Proof.
  split; [reflexivity|]. split; [discriminate|].
  apply (solved_unqualified_panics TargetTable "users"); [reflexivity | discriminate].
Defined.

(** C1, as the specification words it, fails: [solved] on the Create
    statement for the table [users] ends in a panic, so it is not true that
    these statements never end in a process-terminating fault. *)
Lemma solved_unqualified_is_a_panic :
  CreateStmt.solved create_users = Panicked "cannot resolve schema for `users`" /\
  ~ (forall c n,
        CreateStmt.Name c = PlainName n ->
        contains n "." = false ->
        CreateStmt.Target c <> TargetSchema ->
        ~ panics (CreateStmt.solved c)).
Proof.
  split; [reflexivity|].
  intros H. apply (H create_users "users"); [reflexivity | reflexivity | discriminate |].
  eexists. reflexivity.
Qed.

(** ** Two-part names *)

(** C3, as the code has it: when Name is the two-part string [s.o], every
    Create statement's [solved] includes [{s, o, ""}], and every Alter
    statement's [solved] is the single key [{s, o, f}], where [f] is the name
    of the added column when the sub-expression is an add-column expression
    and [""] otherwise; so it includes [{s, o, ""}] exactly when [f] is
    empty. *)
Theorem solved_two_part_name (s o : string) :
  contains s "." = false ->
  contains o "." = false ->
  (forall target create ifNotX, exists deps,
      CreateStmt.solved
        (CreateStmt.mk target (PlainName (s +:+ "." +:+ o)) create ifNotX) =
      Returned deps /\
      mkNamedObject s o "" ∈ deps) /\
  (forall target alter,
      AlterStmt.solved (AlterStmt.mk target (PlainName (s +:+ "." +:+ o)) alter) =
      Returned [mkNamedObject s o (addedField alter)] /\
      (mkNamedObject s o "" ∈ [mkNamedObject s o (addedField alter)] <->
       addedField alter = "")).
Proof.
  intros Hs Ho. split.
  - intros target create ifNotX. eexists. split.
    + apply CreateStmt_solved_keys. cbn [CreateStmt.Target CreateStmt.Name].
      apply resolveName_two_parts; assumption.
    + apply list_elem_of_here.
  - intros target alter. split.
    + rewrite AlterStmt_solved_resolve. cbn [AlterStmt.Target AlterStmt.Name].
      rewrite resolveName_two_parts by assumption. reflexivity.
    + rewrite list_elem_of_singleton. split.
      * intros H. injection H as H. symmetry. exact H.
      * intros ->. reflexivity.
Qed.

Lemma solved_two_part_name_witness :
  contains "s" "." = false /\
  contains "o" "." = false /\
  AlterStmt.solved alter_add_column = Returned [mkNamedObject "s" "o" "f"].
Proof.
  split; [reflexivity|]. split; [reflexivity|].
  apply (proj2 (solved_two_part_name "s" "o" eq_refl eq_refl) TargetTable
           (Some add_column_f)).
Defined.

(** C3, as the specification words it, fails for Alter: with an add-column
    sub-expression for column [f], [solved] on the name [s.o] is
    [[{s, o, f}]], which does not include [{s, o, ""}]. *)
Lemma alter_add_column_solved_lacks_base_key :
  AlterStmt.solved alter_add_column = Returned [mkNamedObject "s" "o" "f"] /\
  ~ (exists deps,
        AlterStmt.solved alter_add_column = Returned deps /\
        mkNamedObject "s" "o" "" ∈ deps).
Proof.
  split; [reflexivity|].
  intros (deps & H & Hin).
  change (AlterStmt.solved alter_add_column)
    with (Returned (A := Dependencies) [mkNamedObject "s" "o" "f"]) in H.
  injection H as <-.
  apply list_elem_of_singleton in Hin. discriminate.
Qed.

(** ** Tables and their columns *)

(** C4: for a Create statement whose sub-expression is a table body and
    whose name resolves to schema [s] and object [o], [solved] is the base
    key [{s, o, ""}] followed by one key [{s, o, c}] per declared column, in
    declaration order. *)
Theorem CreateStmt_solved_table_body
    (c : CreateStmt.t) (body : SqlExpr) (fields : list FieldDescriber) (s o : string) :
  CreateStmt.Create c = Some body ->
  dynType body = TableBodyDescriber fields ->
  resolveName (CreateStmt.Target c) (CreateStmt.Name c) = Returned (s, o) ->
  CreateStmt.solved c =
  Returned
    (mkNamedObject s o "" ::
     map (fun f => mkNamedObject s o (GetName (FieldName f))) fields).
Proof.
  intros Hc Hb Hr. rewrite (CreateStmt_solved_keys c s o Hr), Hc.
  destruct body as [ty txt deps]. simpl in Hb. subst ty. reflexivity.
Qed.

Lemma CreateStmt_solved_table_body_witness :
  CreateStmt.Create create_public_users = Some columns_a_b /\
  dynType columns_a_b =
    TableBodyDescriber [mkField (PlainName "a"); mkField (PlainName "b")] /\
  resolveName (CreateStmt.Target create_public_users)
    (CreateStmt.Name create_public_users) = Returned ("public", "users") /\
  CreateStmt.solved create_public_users =
  Returned [mkNamedObject "public" "users" "";
            mkNamedObject "public" "users" "a";
            mkNamedObject "public" "users" "b"].
Proof.
  split; [reflexivity|]. split; [reflexivity|]. split; [reflexivity|].
  apply (CreateStmt_solved_table_body create_public_users columns_a_b
           [mkField (PlainName "a"); mkField (PlainName "b")] "public" "users");
    reflexivity.
Defined.

(** ** Names with several separators *)

(** C6, as the code has it: a plain Name that contains ['.'] resolves to the
    schema before the first ['.'] and to the object between the first ['.']
    and the next one; the object is the whole remainder only when the
    remainder holds no further ['.']. Alter emits that one key, Create
    begins with it and every further key has the same schema and object. *)
Theorem solved_dotted_name (target : SqlTarget) (n : string) :
  contains n "." = true ->
  let s := beforeSep n "." in
  let o := beforeSep (afterSep n ".") "." in
  (forall alter,
      AlterStmt.solved (AlterStmt.mk target (PlainName n) alter) =
      Returned [mkNamedObject s o (addedField alter)]) /\
  (forall create ifNotX, exists rest,
      CreateStmt.solved (CreateStmt.mk target (PlainName n) create ifNotX) =
      Returned (mkNamedObject s o "" :: rest) /\
      Forall (fun d => Schema d = s /\ Object d = o) rest) /\
  (contains (afterSep n ".") "." = false -> o = afterSep n ".").
Proof.
  intros Hn s o.
  assert (Hr : resolveName target (PlainName n) = Returned (s, o)).
  { rewrite resolveName_plain, Hn. reflexivity. }
  split; [|split].
  - intros alter. rewrite AlterStmt_solved_resolve.
    cbn [AlterStmt.Target AlterStmt.Name]. rewrite Hr. reflexivity.
  - intros create ifNotX. eexists. split.
    + apply CreateStmt_solved_keys. exact Hr.
    + cbn [CreateStmt.Create].
      destruct create as [[[ | fields | ] ? ?]|]; try constructor.
      apply Forall_forall. intros d Hd. apply list_elem_of_In, in_map_iff in Hd.
      destruct Hd as (f & <- & _). split; reflexivity.
  - intros H. apply beforeSep_none. exact H.
Qed.

Lemma solved_dotted_name_witness :
  contains "a.b.c" "." = true /\
  forall alter,
    AlterStmt.solved (AlterStmt.mk TargetTable (PlainName "a.b.c") alter) =
    Returned [mkNamedObject "a" "b" (addedField alter)].
Proof.
  split; [reflexivity|].
  exact (proj1 (solved_dotted_name TargetTable "a.b.c" eq_refl)).
Defined.

(** C6, as the specification words it, fails: for the name [a.b.c] the
    remainder after the first ['.'] is [b.c], but the object [solved] puts
    in its key is [b]. *)
Lemma three_part_name_object_is_not_the_remainder :
  afterSep "a.b.c" "." = "b.c" /\
  CreateStmt.solved create_three_parts = Returned [mkNamedObject "a" "b" ""] /\
  ~ (exists rest,
        CreateStmt.solved create_three_parts =
        Returned (mkNamedObject (beforeSep "a.b.c" ".") (afterSep "a.b.c" ".") "" :: rest)).
Proof.
  split; [reflexivity|]. split; [reflexivity|].
  intros (rest & H).
  change (CreateStmt.solved create_three_parts)
    with (Returned (A := Dependencies) [mkNamedObject "a" "b" ""]) in H.
  discriminate H.
Qed.

(** ** Constraints *)

(** C10: a Create statement whose Target is the constraint target renders
    as [create] followed by the text of its sub-expression, whatever its
    Name is, while [solved] still resolves the Name: with a plain Name
    without ['.'] it panics. *)
Theorem constraint_create_ignores_name_only_in_rendering (c : CreateStmt.t) :
  CreateStmt.Target c = TargetConstraint ->
  CreateStmt.String c =
    match CreateStmt.Create c with
    | Some create =>
        if decide (SqlExpr_String create = "") then "create"
        else "create " +:+ SqlExpr_String create
    | None => "create"
    end /\
  (forall name,
      CreateStmt.String
        (CreateStmt.mk (CreateStmt.Target c) name (CreateStmt.Create c) (CreateStmt.IfNotX c)) =
      CreateStmt.String c) /\
  (forall n,
      CreateStmt.Name c = PlainName n ->
      contains n "." = false ->
      CreateStmt.solved c = Panicked ("cannot resolve schema for `" +:+ n +:+ "`")).
Proof.
  intros Ht. split; [|split].
  - unfold CreateStmt.String. rewrite Ht.
    destruct (decide (TargetConstraint = TargetConstraint)) as [_|H]; [|contradiction].
    unfold NonEmptyStringsConcatSpaceSeparated, nonEmptyTokens.
    destruct (CreateStmt.Create c) as [create|]; [|reflexivity].
    cbn [fmap option_fmap option_map omap list_omap id].
    rewrite filter_cons_True by discriminate.
    destruct (decide (SqlExpr_String create = "")) as [He|He].
    + rewrite filter_cons_False by (intros H; apply H, He). reflexivity.
    + rewrite filter_cons_True by exact He. reflexivity.
  - intros name. unfold CreateStmt.String. cbn [CreateStmt.Target CreateStmt.Create].
    rewrite Ht. reflexivity.
  - intros n Hn Hd. rewrite CreateStmt_solved_resolve, Hn, Ht.
    rewrite resolveName_unqualified by (assumption || discriminate). reflexivity.
Qed.

Lemma constraint_create_ignores_name_only_in_rendering_witness :
  CreateStmt.Target create_constraint = TargetConstraint /\
  CreateStmt.String create_constraint = "create constraint users_pk primary key (id)" /\
  CreateStmt.solved create_constraint = Panicked "cannot resolve schema for `users_pk`".
Proof.
  split; [reflexivity|].
  destruct (constraint_create_ignores_name_only_in_rendering create_constraint eq_refl)
    as (Hs & _ & Hp).
  split; [exact Hs | exact (Hp "users_pk" eq_refl eq_refl)].
Defined.

(** ** Composition in With *)

(** C7: the dependencies of a With statement are those of its Select
    followed by those of its With part, and likewise for [solved]. *)
Theorem WithStmt_composition (w : WithStmt.t) :
  WithStmt.dependedOn w =
    SelectStmt.dependedOn (WithStmt.Select w) ++ SelectStmt.dependedOn (WithStmt.With w) /\
  WithStmt.solved w =
    SelectStmt.solved (WithStmt.Select w) ++ SelectStmt.solved (WithStmt.With w).
Proof. split; reflexivity. Qed.

(** ** The dependency of Insert *)

(** C2, the code at two insert targets: for the selector [public.users]
    and for the plain name [public.users] the resolution of the table
    identifier gives schema [public] and object [users], but the one edge
    of [dependedOn] has an empty schema, and for the plain name the whole
    dotted text as its object. *)
Theorem InsertStmt_dependedOn_blank_schema :
  resolveName TargetTable (TableDesc.Table (InsertStmt.Table insert_public_users)) =
    Returned ("public", "users") /\
  InsertStmt.dependedOn insert_public_users = [mkNamedObject "" "users" ""] /\
  resolveName TargetTable (TableDesc.Table (InsertStmt.Table insert_dotted_users)) =
    Returned ("public", "users") /\
  InsertStmt.dependedOn insert_dotted_users = [mkNamedObject "" "public.users" ""].
Proof. repeat split. Qed.

(** ** Blanks in rendered text *)

Lemma startsWithSpace_app (a b : string) :
  a <> "" -> startsWithSpace (a +:+ b) = startsWithSpace a.
Proof. destruct a; [congruence | reflexivity]. Qed.

Lemma app_not_empty_r (a b : string) : b <> "" -> a +:+ b <> "".
Proof. destruct a; [trivial | discriminate]. Qed.

Lemma endsWithSpace_cons (c : ascii) (s : string) :
  s <> "" -> endsWithSpace (String c s) = endsWithSpace s.
Proof. destruct s; [congruence | reflexivity]. Qed.

Lemma endsWithSpace_app (a b : string) :
  b <> "" -> endsWithSpace (a +:+ b) = endsWithSpace b.
Proof.
  intros Hb. induction a as [|c a IH]; [reflexivity|].
  change (String c a +:+ b) with (String c (a +:+ b)).
  rewrite endsWithSpace_cons by (apply app_not_empty_r, Hb). exact IH.
Qed.

Lemma hasDoubleSpace_app (a b : string) :
  hasDoubleSpace (a +:+ b) =
  hasDoubleSpace a || (endsWithSpace a && startsWithSpace b) || hasDoubleSpace b.
Proof.
  induction a as [|c a IH]; [reflexivity|].
  change (String c a +:+ b) with (String c (a +:+ b)).
  cbn [hasDoubleSpace]. rewrite IH.
  destruct a as [|d a].
  - change ("" +:+ b) with b. cbn [hasDoubleSpace endsWithSpace startsWithSpace].
    destruct (isSpace c), (startsWithSpace b), (hasDoubleSpace b); reflexivity.
  - rewrite startsWithSpace_app by discriminate.
    rewrite (endsWithSpace_cons c (String d a)) by discriminate.
    destruct (isSpace c), (startsWithSpace (String d a)), (hasDoubleSpace (String d a)),
      (endsWithSpace (String d a)), (startsWithSpace b), (hasDoubleSpace b); reflexivity.
Qed.

Lemma tidy_spaced (a b : string) :
  a <> "" -> b <> "" -> tidy a -> tidy b -> tidy (a +:+ " " +:+ b).
Proof.
  intros Ha Hb (Ha1 & Ha2 & Ha3) (Hb1 & Hb2 & Hb3). repeat split.
  - rewrite startsWithSpace_app by exact Ha. exact Ha1.
  - rewrite endsWithSpace_app by discriminate.
    change (" " +:+ b) with (String " " b).
    rewrite endsWithSpace_cons by exact Hb. exact Hb2.
  - rewrite hasDoubleSpace_app, Ha2, Ha3.
    change (" " +:+ b) with (String " " b). cbn [hasDoubleSpace orb andb].
    rewrite Hb1, Hb3. reflexivity.
Qed.

Lemma Join_not_empty (e : string) (rest : list string) (sep : string) :
  e <> "" -> Join (e :: rest) sep <> "".
Proof.
  intros He. destruct rest; cbn [Join]; [exact He|].
  destruct e; [congruence | discriminate].
Qed.

Lemma tidy_Join (tokens : list string) :
  Forall (fun t => t <> "" /\ tidy t) tokens -> tidy (Join tokens " ").
Proof.
  induction 1 as [|e rest [He Ht] Hrest IH]; [repeat split|].
  destruct Hrest as [|e' rest' [He' Ht'] Hrest']; [exact Ht|].
  change (tidy (e +:+ " " +:+ Join (e' :: rest') " ")).
  apply tidy_spaced; auto using Join_not_empty.
Qed.

Lemma tidy_NonEmptyStringsConcatSpaceSeparated (tokens : list (option string)) :
  Forall (fun t => forall x, t = Some x -> tidy x) tokens ->
  tidy (NonEmptyStringsConcatSpaceSeparated tokens).
Proof.
  intros H. apply tidy_Join, Forall_forall. intros t Ht.
  apply list_elem_of_filter in Ht as [Hne Ht].
  apply list_elem_of_omap in Ht as (o & Ho & Hid).
  split; [exact Hne|].
  rewrite Forall_forall in H. apply (H o Ho). exact Hid.
Qed.

Lemma tidy_SqlTarget_String (t : SqlTarget) : tidy (SqlTarget_String t).
Proof. destruct t; repeat split. Qed.

(** C5, as the code has it: Create and Drop statements join their
    non-empty tokens with single spaces and leave out the empty and absent
    ones: when the name and the body text are themselves free of leading,
    trailing and doubled blanks, so is the rendered text, whatever the
    if-not-exists flag is and whether or not a body is present; and the
    Create statement for the table [public.users] with the flag set and an
    empty or absent body text renders as
    [create table if not exists public.users]. *)
Theorem create_and_drop_render_tidy (c : CreateStmt.t) (d : DropStmt.t) :
  tidy (GetName (CreateStmt.Name c)) ->
  (forall create, CreateStmt.Create c = Some create -> tidy (SqlExpr_String create)) ->
  tidy (GetName (DropStmt.Name d)) ->
  tidy (CreateStmt.String c) /\
  tidy (DropStmt.String d) /\
  (forall create,
      from_option SqlExpr_String "" create = "" ->
      CreateStmt.String (CreateStmt.mk TargetTable (PlainName "public.users") create true) =
      "create table if not exists public.users").
Proof.
  intros Hname Hbody Hdrop. split; [|split].
  - assert (Hcreate : forall x, SqlExpr_String <$> CreateStmt.Create c = Some x -> tidy x).
    { intros x Hx. destruct (CreateStmt.Create c) as [create|]; [|discriminate].
      injection Hx as <-. apply Hbody. reflexivity. }
    unfold CreateStmt.String.
    destruct (decide _); apply tidy_NonEmptyStringsConcatSpaceSeparated;
      each_token; try exact Hcreate; intros x [= <-];
      auto using tidy_SqlTarget_String; try (repeat split; fail).
    destruct (CreateStmt.IfNotX c); repeat split.
  - unfold DropStmt.String. apply tidy_NonEmptyStringsConcatSpaceSeparated.
    each_token; intros x [= <-]; auto using tidy_SqlTarget_String. repeat split.
  - intros [[ty txt deps]|] H; [|reflexivity].
    cbn in H. subst txt. reflexivity.
Qed.

Lemma create_and_drop_render_tidy_witness :
  tidy (GetName (CreateStmt.Name create_public_users)) /\
  tidy (GetName (DropStmt.Name drop_public_users)) /\
  tidy (CreateStmt.String create_public_users) /\
  tidy (DropStmt.String drop_public_users) /\
  CreateStmt.String create_public_users = "create table if not exists public.users" /\
  DropStmt.String drop_public_users = "drop table public.users".
Proof.
  assert (Hn : tidy "public.users") by (repeat split).
  assert (Hb : forall create,
             CreateStmt.Create create_public_users = Some create ->
             tidy (SqlExpr_String create)).
  { intros create [= <-]. repeat split. }
  destruct (create_and_drop_render_tidy create_public_users drop_public_users Hn Hb Hn)
    as (Hc & Hd & He).
  split; [exact Hn|]. split; [exact Hn|]. split; [exact Hc|]. split; [exact Hd|].
  split; [exact (He (Some columns_a_b) eq_refl) | reflexivity].
Defined.

(** C5, as the specification words it, fails for the statements that are
    rendered through a fixed format: an empty alias leaves two blanks in a
    row in Update and Select, an absent on-conflict fragment and an empty
    body text leave a trailing blank in Insert and Alter. *)
Lemma fixed_formats_leave_blanks :
  UpdateStmt.String update_no_alias = "update t  set a = 1 where 1 = 1" /\
  hasDoubleSpace (UpdateStmt.String update_no_alias) = true /\
  SelectStmt.String select_no_alias = "select a from t  where 1 = 1" /\
  hasDoubleSpace (SelectStmt.String select_no_alias) = true /\
  InsertStmt.String insert_public_users [] = "insert into users () values () " /\
  InsertStmt.rangeOrder (InsertStmt.Insert insert_public_users) [] /\
  endsWithSpace (InsertStmt.String insert_public_users []) = true /\
  AlterStmt.String alter_empty_text = Returned "alter table public.users " /\
  endsWithSpace "alter table public.users " = true.
Proof.
  repeat split.
  unfold InsertStmt.rangeOrder. cbn [InsertStmt.Insert insert_public_users].
  rewrite map_to_list_empty. reflexivity.
Qed.

(** ** The field and value lists of Insert *)

Lemma InsertStmt_lists_from (order : list (string * SqlExpr)) (fs vs : list string) :
  fold_left
    (fun '(fieldsList, valuesList) '(f, s) =>
       (fieldsList ++ [f], valuesList ++ [SqlExpr_String s]))
    order (fs, vs) =
  (fs ++ order.*1, vs ++ (SqlExpr_String ∘ snd <$> order)).
Proof.
  revert fs vs. induction order as [|[f e] order IH]; intros fs vs.
  - cbn. rewrite !app_nil_r. reflexivity.
  - cbn [fold_left]. rewrite IH. cbn. rewrite <- !app_assoc. reflexivity.
Qed.

Lemma InsertStmt_lists_eq (order : list (string * SqlExpr)) :
  InsertStmt.lists order = (order.*1, SqlExpr_String ∘ snd <$> order).
Proof. unfold InsertStmt.lists. apply InsertStmt_lists_from. Qed.

(** C9: in a rendering of an Insert statement, whatever the order in which
    the loop visits the map, the field list and the value list have the same
    length, and the value at each position is the text of the expression the
    map associates with the field at that position; the rendered text joins
    exactly these two lists. *)
Theorem InsertStmt_fields_values_aligned
    (c : InsertStmt.t) (order : list (string * SqlExpr)) :
  InsertStmt.rangeOrder (InsertStmt.Insert c) order ->
  let fieldsList := (InsertStmt.lists order).1 in
  let valuesList := (InsertStmt.lists order).2 in
  length fieldsList = length valuesList /\
  (forall (i : nat) (f : string),
      fieldsList !! i = Some f ->
      exists e, InsertStmt.Insert c !! f = Some e /\
                valuesList !! i = Some (SqlExpr_String e)) /\
  InsertStmt.String c order =
    Sprintf "insert into %s (%s) values (%s) %s"
      [GetName (TableDesc.Table (InsertStmt.Table c));
       Join fieldsList ", "; Join valuesList ", ";
       OnConflict.String (InsertStmt.OnConflict c)].
Proof.
  intros Horder fieldsList valuesList. subst fieldsList valuesList.
  unfold InsertStmt.String. rewrite InsertStmt_lists_eq. cbn [fst snd].
  split; [|split; [|reflexivity]].
  - rewrite !length_fmap. reflexivity.
  - intros i f Hi. rewrite list_lookup_fmap in Hi.
    destruct (order !! i) as [[f' e]|] eqn:Hoi; [|discriminate].
    injection Hi as ->. exists e. split.
    + apply elem_of_map_to_list. rewrite <- Horder.
      apply list_elem_of_lookup. exists i. exact Hoi.
    + rewrite list_lookup_fmap, Hoi. reflexivity.
Qed.

Lemma InsertStmt_fields_values_aligned_witness :
  InsertStmt.rangeOrder (InsertStmt.Insert insert_one_field)
    [("a", mkExpr OtherExpr "1" [])] /\
  InsertStmt.String insert_one_field [("a", mkExpr OtherExpr "1" [])] =
    "insert into t (a) values (1) ".
Proof.
  assert (H : InsertStmt.rangeOrder (InsertStmt.Insert insert_one_field)
                [("a", mkExpr OtherExpr "1" [])]).
  { unfold InsertStmt.rangeOrder, insert_one_field. cbn [InsertStmt.Insert].
    rewrite map_to_list_singleton. reflexivity. }
  split; [exact H|].
  exact (proj2 (proj2 (InsertStmt_fields_values_aligned insert_one_field _ H))).
Defined.

(** C8, as the code has it: a rendering of an Insert statement lists the
    fields and the values in the order in which its loop visits the entries
    of the map, every field of the map once; that order is some arrangement
    of the map's entries and not one fixed at construction. When the map
    holds at most one entry, any two renders of the statement produce
    identical text. *)
Theorem InsertStmt_render_follows_range_order (c : InsertStmt.t) :
  (forall order,
      InsertStmt.rangeOrder (InsertStmt.Insert c) order ->
      (InsertStmt.lists order).1 = order.*1 /\
      (InsertStmt.lists order).2 = (SqlExpr_String ∘ snd <$> order) /\
      NoDup (InsertStmt.lists order).1 /\
      (forall f, f ∈ (InsertStmt.lists order).1 <-> is_Some (InsertStmt.Insert c !! f))) /\
  (size (InsertStmt.Insert c) <= 1 ->
   forall t1 t2, InsertStmt.renders c t1 -> InsertStmt.renders c t2 -> t1 = t2).
Proof.
  split.
  - intros order Horder. rewrite InsertStmt_lists_eq. cbn [fst snd].
    unfold InsertStmt.rangeOrder in Horder.
    split; [reflexivity|]. split; [reflexivity|]. split.
    + rewrite Horder. apply NoDup_fst_map_to_list.
    + intros f. rewrite Horder, list_elem_of_fmap. split.
      * intros ([f' e] & -> & H). exists e. apply elem_of_map_to_list. exact H.
      * intros [e H]. exists (f, e). split; [reflexivity|].
        apply elem_of_map_to_list. exact H.
  - intros Hsize t1 t2 (o1 & H1 & <-) (o2 & H2 & <-).
    unfold InsertStmt.rangeOrder in H1, H2.
    rewrite <- length_map_to_list in Hsize.
    destruct (map_to_list (InsertStmt.Insert c)) as [|kv [|kv' l]].
    + apply Permutation_nil_r in H1, H2. subst. reflexivity.
    + apply Permutation_singleton_r in H1, H2. subst. reflexivity.
    + cbn in Hsize. lia.
Qed.

Lemma InsertStmt_render_follows_range_order_witness :
  size (InsertStmt.Insert insert_one_field) <= 1 /\
  InsertStmt.renders insert_one_field "insert into t (a) values (1) " /\
  forall t, InsertStmt.renders insert_one_field t -> t = "insert into t (a) values (1) ".
Proof.
  assert (Hs : size (InsertStmt.Insert insert_one_field) <= 1).
  { unfold insert_one_field. cbn [InsertStmt.Insert]. rewrite map_size_singleton. lia. }
  assert (Hr : InsertStmt.renders insert_one_field "insert into t (a) values (1) ").
  { exists [("a", mkExpr OtherExpr "1" [])]. split; [|reflexivity].
    unfold InsertStmt.rangeOrder, insert_one_field. cbn [InsertStmt.Insert].
    rewrite map_to_list_singleton. reflexivity. }
  split; [exact Hs|]. split; [exact Hr|].
  intros t Ht.
  exact (proj2 (InsertStmt_render_follows_range_order insert_one_field) Hs _ _ Ht Hr).
Defined.

(** C8, as the specification words it, fails: the statement with the two
    fields [a] and [b] has two renders with different texts, one for each
    order in which the loop may visit the map. *)
Lemma insert_two_fields_renders_differ :
  InsertStmt.renders insert_two_fields "insert into t (a, b) values (1, 2) " /\
  InsertStmt.renders insert_two_fields "insert into t (b, a) values (2, 1) " /\
  ~ (forall t1 t2,
        InsertStmt.renders insert_two_fields t1 ->
        InsertStmt.renders insert_two_fields t2 -> t1 = t2).
Proof.
  assert (Hab : InsertStmt.rangeOrder (InsertStmt.Insert insert_two_fields)
                  [("a", mkExpr OtherExpr "1" []); ("b", mkExpr OtherExpr "2" [])]).
  { unfold InsertStmt.rangeOrder, insert_two_fields. cbn [InsertStmt.Insert].
    rewrite map_to_list_insert by (apply lookup_singleton_ne; discriminate).
    rewrite map_to_list_singleton. reflexivity. }
  assert (H1 : InsertStmt.renders insert_two_fields "insert into t (a, b) values (1, 2) ").
  { eexists. split; [exact Hab | reflexivity]. }
  assert (H2 : InsertStmt.renders insert_two_fields "insert into t (b, a) values (2, 1) ").
  { exists [("b", mkExpr OtherExpr "2" []); ("a", mkExpr OtherExpr "1" [])].
    split; [|reflexivity].
    unfold InsertStmt.rangeOrder. rewrite <- Hab. apply Permutation_swap. }
  split; [exact H1|]. split; [exact H2|].
  intros H. specialize (H _ _ H1 H2). discriminate H.
Qed.

(** * Further properties of the statements *)

(** ** When name resolution fails, and what it yields when it does not *)

Lemma resolveName_panics_iff (target : SqlTarget) (name : SqlIdent) :
  panics (resolveName target name) <->
  exists n, name = PlainName n /\ contains n "." = false /\ target <> TargetSchema.
Proof.
  destruct name as [n|container n].
  - rewrite resolveName_plain. destruct (contains n ".") eqn:Hn.
    + split; [intros [m H]; discriminate H | intros (n' & [= <-] & H & _); congruence].
    + destruct (decide (target = TargetSchema)) as [Ht|Ht].
      * split; [intros [m H]; discriminate H | intros (n' & _ & _ & H); contradiction].
      * split; [intros _; exists n; auto | intros _; eexists; reflexivity].
  - split; [intros [m H]; discriminate H | intros (n' & H & _); discriminate H].
Qed.

(** X1: the one way [solved] of an Alter or a Create statement can fail. It
    panics exactly when the Name is a plain identifier without ['.'] and the
    Target is not the schema target; in every other case it returns. *)
Theorem solved_panics_iff (a : AlterStmt.t) (c : CreateStmt.t) :
  (panics (AlterStmt.solved a) <->
   exists n, AlterStmt.Name a = PlainName n /\ contains n "." = false /\
             AlterStmt.Target a <> TargetSchema) /\
  (panics (CreateStmt.solved c) <->
   exists n, CreateStmt.Name c = PlainName n /\ contains n "." = false /\
             CreateStmt.Target c <> TargetSchema).
Proof.
  split.
  - rewrite AlterStmt_solved_resolve, <- resolveName_panics_iff.
    destruct (resolveName _ _) as [[s o]|m]; split; intros [m' H];
      try discriminate H; eexists; reflexivity.
  - rewrite CreateStmt_solved_resolve, <- resolveName_panics_iff.
    destruct (resolveName _ _) as [[s o]|m]; split; intros [m' H];
      try discriminate H; eexists; reflexivity.
Qed.

(** X2: a selector is taken as it is. For every Target, [solved] returns
    keys whose schema is the selector's container and whose object is the
    selector's name, even when these contain ['.']; it never panics. *)
Theorem solved_selector_name (target : SqlTarget) (container name : string) :
  (forall alter,
      AlterStmt.solved (AlterStmt.mk target (Selector container name) alter) =
      Returned [mkNamedObject container name (addedField alter)]) /\
  (forall create ifNotX,
      CreateStmt.solved (CreateStmt.mk target (Selector container name) create ifNotX) =
      Returned
        (mkNamedObject container name "" ::
         map (fun f => mkNamedObject container name (GetName (FieldName f)))
           (declaredColumns create))).
Proof.
  split.
  - intros alter. rewrite AlterStmt_solved_resolve. reflexivity.
  - intros create ifNotX.
    rewrite (CreateStmt_solved_keys _ container name) by reflexivity.
    destruct create as [[[ | fields | ] ? ?]|]; reflexivity.
Qed.

(** X3: for the schema target a plain Name without ['.'] is the schema
    itself: the keys of [solved] have that name as schema and an empty
    object. *)
Theorem solved_schema_target_plain_name (n : string) :
  contains n "." = false ->
  (forall alter,
      AlterStmt.solved (AlterStmt.mk TargetSchema (PlainName n) alter) =
      Returned [mkNamedObject n "" (addedField alter)]) /\
  (forall create ifNotX,
      CreateStmt.solved (CreateStmt.mk TargetSchema (PlainName n) create ifNotX) =
      Returned
        (mkNamedObject n "" "" ::
         map (fun f => mkNamedObject n "" (GetName (FieldName f)))
           (declaredColumns create))).
Proof.
  intros Hn.
  assert (Hr : resolveName TargetSchema (PlainName n) = Returned (n, "")).
  { rewrite resolveName_plain, Hn. reflexivity. }
  split.
  - intros alter. rewrite AlterStmt_solved_resolve.
    cbn [AlterStmt.Target AlterStmt.Name]. rewrite Hr. reflexivity.
  - intros create ifNotX. rewrite (CreateStmt_solved_keys _ n "") by exact Hr.
    destruct create as [[[ | fields | ] ? ?]|]; reflexivity.
Qed.

Lemma solved_schema_target_plain_name_witness :
  contains "app" "." = false /\
  CreateStmt.solved create_schema_app = Returned [mkNamedObject "app" "" ""].
Proof.
  split; [reflexivity|].
  exact (proj2 (solved_schema_target_plain_name "app" eq_refl) None false).
Defined.

(** X4: the shape of what [solved] returns. An Alter statement solves
    exactly one key. A Create statement solves one key with an empty field
    followed by one key per declared column, so one more key than it has
    columns, and all its keys have the schema and the object of the first. *)
Theorem solved_shape (a : AlterStmt.t) (c : CreateStmt.t) (deps : Dependencies) :
  (AlterStmt.solved a = Returned deps -> length deps = 1) /\
  (CreateStmt.solved c = Returned deps ->
   exists first,
     head deps = Some first /\
     Field first = "" /\
     length deps = S (length (declaredColumns (CreateStmt.Create c))) /\
     Forall (fun d => Schema d = Schema first /\ Object d = Object first) deps /\
     Field <$> tail deps = GetName ∘ FieldName <$> declaredColumns (CreateStmt.Create c)).
Proof.
  split.
  - rewrite AlterStmt_solved_resolve.
    destruct (resolveName _ _) as [[s o]|m]; [|discriminate].
    intros [= <-]. reflexivity.
  - destruct (resolveName (CreateStmt.Target c) (CreateStmt.Name c)) as [[s o]|m] eqn:Hr.
    + rewrite (CreateStmt_solved_keys c s o Hr).
      replace (match CreateStmt.Create c with
               | Some {| dynType := TableBodyDescriber fields |} =>
                   map (fun f => mkNamedObject s o (GetName (FieldName f))) fields
               | _ => []
               end)
        with (map (fun f => mkNamedObject s o (GetName (FieldName f)))
                (declaredColumns (CreateStmt.Create c)))
        by (destruct (CreateStmt.Create c) as [[[ | fields | ] ? ?]|]; reflexivity).
      intros [= <-]. eexists. split; [reflexivity|]. split; [reflexivity|].
      split; [cbn [length]; rewrite length_map; reflexivity|]. split.
      * apply Forall_cons. split; [split; reflexivity|].
        apply Forall_forall. intros d Hd. apply list_elem_of_In, in_map_iff in Hd.
        destruct Hd as (f & <- & _). split; reflexivity.
      * cbn [tail]. induction (declaredColumns _) as [|f l IH]; [reflexivity|].
        cbn. f_equal. exact IH.
    + rewrite CreateStmt_solved_resolve, Hr. discriminate.
Qed.

Lemma solved_shape_witness :
  CreateStmt.solved create_selector_users =
    Returned [mkNamedObject "public" "users.v2" "";
              mkNamedObject "public" "users.v2" "a";
              mkNamedObject "public" "users.v2" "b"] /\
  exists first,
    head [mkNamedObject "public" "users.v2" "";
          mkNamedObject "public" "users.v2" "a";
          mkNamedObject "public" "users.v2" "b"] = Some first /\
    Field first = "".
Proof.
  split; [reflexivity|].
  destruct (proj2 (solved_shape alter_add_column create_selector_users _) eq_refl)
    as (first & H1 & H2 & _).
  exists first. split; [exact H1 | exact H2].
Defined.

Lemma before_after_sep (n : string) (sep : ascii) :
  contains n sep = true -> beforeSep n sep +:+ String sep (afterSep n sep) = n.
Proof.
  induction n as [|a n IH]; [discriminate|].
  cbn [contains beforeSep afterSep].
  destruct (Ascii.eqb a sep) eqn:E.
  - intros _. apply Ascii.eqb_eq in E. subst a. reflexivity.
  - cbn [orb]. intros H. change (String a (beforeSep n sep +:+ String sep (afterSep n sep)) = String a n).
    rewrite IH by exact H. reflexivity.
Qed.

(** X5: a plain Name with exactly one ['.'] is recovered from the key it
    resolves to: schema, ['.'] and object spell the Name again. *)
Theorem solved_one_dot_round_trip (target : SqlTarget) (n : string) :
  contains n "." = true ->
  contains (afterSep n ".") "." = false ->
  exists s o,
    (forall alter,
        AlterStmt.solved (AlterStmt.mk target (PlainName n) alter) =
        Returned [mkNamedObject s o (addedField alter)]) /\
    (forall create ifNotX, exists rest,
        CreateStmt.solved (CreateStmt.mk target (PlainName n) create ifNotX) =
        Returned (mkNamedObject s o "" :: rest)) /\
    s +:+ "." +:+ o = n.
Proof.
  intros Hn Hrest.
  exists (beforeSep n "."), (afterSep n ".").
  assert (Hr : resolveName target (PlainName n) =
               Returned (beforeSep n ".", afterSep n ".")).
  { rewrite resolveName_plain, Hn, (beforeSep_none _ _ Hrest). reflexivity. }
  split; [|split].
  - intros alter. rewrite AlterStmt_solved_resolve.
    cbn [AlterStmt.Target AlterStmt.Name]. rewrite Hr. reflexivity.
  - intros create ifNotX. eexists. apply CreateStmt_solved_keys. exact Hr.
  - apply before_after_sep. exact Hn.
Qed.

Lemma solved_one_dot_round_trip_witness :
  contains "public.users" "." = true /\
  contains (afterSep "public.users" ".") "." = false /\
  exists s o,
    AlterStmt.solved alter_no_expression = Returned [mkNamedObject s o ""] /\
    s +:+ "." +:+ o = "public.users".
Proof.
  split; [reflexivity|]. split; [reflexivity|].
  destruct (solved_one_dot_round_trip TargetTable "public.users" eq_refl eq_refl)
    as (s & o & Ha & _ & Hn).
  exists s, o. split; [exact (Ha None) | exact Hn].
Defined.

(** ** The dependencies of Update *)





(** ** A missing sub-expression *)



(** ** Closed forms of the space-separated renderings *)

Lemma append_empty_r (a : string) : a +:+ "" = a.
Proof.
  induction a as [|c a IH]; [reflexivity|].
  change (String c (a +:+ "") = String c a). rewrite IH. reflexivity.
Qed.

Lemma append_assoc (a b c : string) : (a +:+ b) +:+ c = a +:+ b +:+ c.
Proof.
  induction a as [|x a IH]; [reflexivity|].
  change (String x ((a +:+ b) +:+ c) = String x (a +:+ b +:+ c)).
  rewrite IH. reflexivity.
Qed.

Lemma nonEmptyTokens_cons (t : option string) (rest : list (option string)) :
  nonEmptyTokens (t :: rest) =
  if decide (default "" t = "") then nonEmptyTokens rest
  else default "" t :: nonEmptyTokens rest.
Proof.
  unfold nonEmptyTokens. destruct t as [x|]; cbn [omap list_omap id default].
  - destruct (decide (x = "")) as [H|H].
    + rewrite filter_cons_False by (intros H'; apply H', H). reflexivity.
    + rewrite filter_cons_True by exact H. reflexivity.
  - reflexivity.
Qed.

Lemma Join_nonEmptyTokens (h : string) (rest : list (option string)) :
  Join (h :: nonEmptyTokens rest) " " = h +:+ spacedTokens rest.
Proof.
  revert h. induction rest as [|t rest IH]; intros h.
  - cbn. symmetry. apply append_empty_r.
  - rewrite nonEmptyTokens_cons. cbn [spacedTokens foldr]. unfold spaced.
    destruct (decide (default "" t = "")) as [H|H].
    + rewrite IH. reflexivity.
    + change (h +:+ " " +:+ Join (default "" t :: nonEmptyTokens rest) " " =
              h +:+ (" " +:+ default "" t) +:+ spacedTokens rest).
      rewrite IH. reflexivity.
Qed.

(** X8: what Create and Drop render, token by token. After the verb, each
    of the target noun, the [if not exists] marker, the name and the body
    text appears preceded by one blank when it is not empty, and leaves no
    trace when it is empty or absent. *)
Theorem create_and_drop_closed_form (c : CreateStmt.t) (d : DropStmt.t) :
  CreateStmt.Target c <> TargetConstraint ->
  CreateStmt.String c =
    "create" +:+ spaced (SqlTarget_String (CreateStmt.Target c))
             +:+ (if CreateStmt.IfNotX c then " if not exists" else "")
             +:+ spaced (GetName (CreateStmt.Name c))
             +:+ spaced (from_option SqlExpr_String "" (CreateStmt.Create c)) /\
  DropStmt.String d =
    "drop" +:+ spaced (SqlTarget_String (DropStmt.Target d))
           +:+ spaced (GetName (DropStmt.Name d)).
Proof.
  intros Ht. split.
  - unfold CreateStmt.String.
    destruct (decide (CreateStmt.Target c = TargetConstraint)); [contradiction|].
    unfold NonEmptyStringsConcatSpaceSeparated.
    rewrite nonEmptyTokens_cons. cbn [from_option id].
    destruct (decide ("create" = "")) as [H|_]; [discriminate H|].
    rewrite Join_nonEmptyTokens. cbn [spacedTokens foldr from_option id].
    rewrite append_empty_r.
    replace (default "" (SqlExpr_String <$> CreateStmt.Create c))
      with (from_option SqlExpr_String "" (CreateStmt.Create c))
      by (destruct (CreateStmt.Create c); reflexivity).
    destruct (CreateStmt.IfNotX c); reflexivity.
  - unfold DropStmt.String, NonEmptyStringsConcatSpaceSeparated.
    rewrite nonEmptyTokens_cons. cbn [from_option id].
    destruct (decide ("drop" = "")) as [H|_]; [discriminate H|].
    rewrite Join_nonEmptyTokens. cbn [spacedTokens foldr from_option id].
    rewrite append_empty_r. reflexivity.
Qed.

Lemma create_and_drop_closed_form_witness :
  CreateStmt.Target create_schema_app <> TargetConstraint /\
  CreateStmt.String create_schema_app = "create schema app" /\
  DropStmt.String drop_public_users = "drop table public.users".
Proof.
  assert (H : CreateStmt.Target create_schema_app <> TargetConstraint) by discriminate.
  split; [exact H|].
  exact (create_and_drop_closed_form create_schema_app drop_public_users H).
Defined.

(** ** Blanks in the renderings made from a fixed format *)

Lemma Join_app (l1 l2 : list string) (sep : string) :
  l1 <> [] -> l2 <> [] ->
  Join (l1 ++ l2) sep = Join l1 sep +:+ sep +:+ Join l2 sep.
Proof.
  intros H1 H2. induction l1 as [|a l1 IH]; [congruence|].
  destruct l1 as [|a' l1].
  - destruct l2 as [|b l2]; [congruence | reflexivity].
  - change (a +:+ sep +:+ Join ((a' :: l1) ++ l2) sep =
            (a +:+ sep +:+ Join (a' :: l1) sep) +:+ sep +:+ Join l2 sep).
    rewrite IH by discriminate. rewrite !append_assoc. reflexivity.
Qed.

Lemma Join_empty_token (l1 l2 : list string) :
  l1 <> [] -> l2 <> [] -> hasDoubleSpace (Join (l1 ++ "" :: l2) " ") = true.
Proof.
  intros H1 H2. rewrite Join_app by (assumption || discriminate).
  destruct l2 as [|b l2]; [congruence|].
  change (Join ("" :: b :: l2) " ") with (" " +:+ Join (b :: l2) " ").
  rewrite hasDoubleSpace_app.
  change (hasDoubleSpace (" " +:+ " " +:+ Join (b :: l2) " ")) with true.
  apply orb_true_r.
Qed.

(** Refutes [H : hasDoubleSpace (Join tokens " ") = false] when the token
    at position [n] is empty and is neither the first nor the last. *)
Ltac refute_by_empty_token H n :=
  match type of H with
  | hasDoubleSpace (Join ?tokens " ") = false =>
      let E := fresh "E" in
      assert (E : hasDoubleSpace (Join (take n tokens ++ "" :: drop (S n) tokens) " ")
                  = true)
        by (apply Join_empty_token; cbn [take drop]; discriminate);
      cbn [take drop app] in E; congruence
  end.

Section JoinTidy.

Variable sep : string.

Hypothesis sep_glues :
  forall a b, a <> "" -> b <> "" -> tidy a -> tidy b -> tidy (a +:+ sep +:+ b).

Lemma tidy_Join_sep (tokens : list string) :
  Forall (fun t => t <> "" /\ tidy t) tokens -> tidy (Join tokens sep).
Proof.
  induction 1 as [|e rest [He Ht] Hrest IH]; [repeat split|].
  destruct Hrest as [|e' rest' [He' Ht'] Hrest']; [exact Ht|].
  change (tidy (e +:+ sep +:+ Join (e' :: rest') sep)).
  apply sep_glues; auto using Join_not_empty.
Qed.

End JoinTidy.

Lemma tidy_comma (a b : string) :
  a <> "" -> b <> "" -> tidy a -> tidy b -> tidy (a +:+ ", " +:+ b).
Proof.
  intros Ha Hb (Ha1 & Ha2 & Ha3) (Hb1 & Hb2 & Hb3). repeat split.
  - rewrite startsWithSpace_app by exact Ha. exact Ha1.
  - rewrite endsWithSpace_app by discriminate.
    change (", " +:+ b) with (String "," (String " " b)).
    rewrite !endsWithSpace_cons by (exact Hb || discriminate). exact Hb2.
  - rewrite hasDoubleSpace_app, Ha2, Ha3.
    change (", " +:+ b) with (String "," (String " " b)).
    cbn [hasDoubleSpace startsWithSpace orb andb]. rewrite Hb1, Hb3. reflexivity.
Qed.

Lemma tidy_clauses (texts : list string) :
  Forall (fun t => t <> "" /\ tidy t) texts -> tidy (Join texts ", ").
Proof. apply tidy_Join_sep. exact tidy_comma. Qed.

Lemma UpdateStmt_String_tokens (c : UpdateStmt.t) :
  UpdateStmt.String c =
  Join ["update";
        GetName (TableDesc.Table (UpdateStmt.Table c));
        TableDesc.Alias (UpdateStmt.Table c);
        "set";
        Join (map SqlExpr_String (UpdateStmt.Set_ c)) ", ";
        "where";
        from_option SqlExpr_String "1 = 1" (UpdateStmt.Where c)] " ".
Proof.
  unfold UpdateStmt.String. rewrite (fold_left_snoc SqlExpr_String).
  replace (match UpdateStmt.Where c with
           | Some where_ => SqlExpr_String where_
           | None => "1 = 1"
           end)
    with (from_option SqlExpr_String "1 = 1" (UpdateStmt.Where c))
    by (destruct (UpdateStmt.Where c); reflexivity).
  generalize (from_option SqlExpr_String "1 = 1" (UpdateStmt.Where c)). intros w.
  rewrite <- (append_empty_r w) at 2. reflexivity.
Qed.

Lemma SelectStmt_String_tokens (c : SelectStmt.t) :
  SelectStmt.String c =
  Join ["select";
        Join (map SqlExpr_String (SelectStmt.Columns c)) ", ";
        "from";
        GetName (TableDesc.Table (SelectStmt.From c));
        TableDesc.Alias (SelectStmt.From c);
        "where";
        from_option SqlExpr_String "1 = 1" (SelectStmt.Where c)] " ".
Proof.
  unfold SelectStmt.String. rewrite (fold_left_snoc SqlExpr_String).
  replace (match SelectStmt.Where c with
           | Some where_ => SqlExpr_String where_
           | None => "1 = 1"
           end)
    with (from_option SqlExpr_String "1 = 1" (SelectStmt.Where c))
    by (destruct (SelectStmt.Where c); reflexivity).
  generalize (from_option SqlExpr_String "1 = 1" (SelectStmt.Where c)). intros w.
  rewrite <- (append_empty_r w) at 2. reflexivity.
Qed.

Lemma tidy_where (where_ : option SqlExpr) :
  (forall w, where_ = Some w -> SqlExpr_String w <> "" /\ tidy (SqlExpr_String w)) ->
  from_option SqlExpr_String "1 = 1" where_ <> "" /\
  tidy (from_option SqlExpr_String "1 = 1" where_).
Proof.
  intros H. destruct where_ as [w|]; [apply H; reflexivity|].
  split; [discriminate | repeat split].
Qed.

Lemma clauses_not_empty (exprs : list SqlExpr) :
  Forall (fun e => SqlExpr_String e <> "" /\ tidy (SqlExpr_String e)) exprs ->
  Forall (fun t => t <> "" /\ tidy t) (map SqlExpr_String exprs) /\
  (exprs <> [] -> Join (map SqlExpr_String exprs) ", " <> "").
Proof.
  intros H. split.
  - induction H; constructor; assumption.
  - destruct H as [|e rest [He _] _]; [congruence|].
    intros _. apply Join_not_empty. exact He.
Qed.

(** X9: when an Update statement is free of stray blanks. Let the table
    name, every Set clause and a present Where clause be non-empty texts
    without leading, trailing or doubled blanks, and the alias be such a text
    or empty. Then the rendered statement has no leading, trailing or doubled
    blank exactly when the alias is not empty and there is at least one Set
    clause; an absent Where clause is rendered as [1 = 1]. *)
Theorem UpdateStmt_String_tidy_iff (c : UpdateStmt.t) :
  GetName (TableDesc.Table (UpdateStmt.Table c)) <> "" ->
  tidy (GetName (TableDesc.Table (UpdateStmt.Table c))) ->
  tidy (TableDesc.Alias (UpdateStmt.Table c)) ->
  Forall (fun e => SqlExpr_String e <> "" /\ tidy (SqlExpr_String e)) (UpdateStmt.Set_ c) ->
  (forall w, UpdateStmt.Where c = Some w ->
             SqlExpr_String w <> "" /\ tidy (SqlExpr_String w)) ->
  (tidy (UpdateStmt.String c) <->
   TableDesc.Alias (UpdateStmt.Table c) <> "" /\ UpdateStmt.Set_ c <> []) /\
  (UpdateStmt.Where c = None ->
   exists text, UpdateStmt.String c = text +:+ " where 1 = 1").
Proof.
  intros Htable Htable' Halias Hset Hwhere.
  destruct (tidy_where _ Hwhere) as [Hw Hw'].
  destruct (clauses_not_empty _ Hset) as [Hclauses Hjoin].
  split.
  - rewrite UpdateStmt_String_tokens. split.
    + intros (_ & _ & Hd). split.
      * intros Ha. rewrite Ha in Hd.
        refute_by_empty_token Hd 2.
      * intros Hs. rewrite Hs in Hd.
        cbn [map] in Hd. change (Join [] ", ") with "" in Hd.
        refute_by_empty_token Hd 4.
    + intros [Ha Hs]. apply tidy_Join.
      repeat (apply Forall_cons; split); try (apply Forall_nil; exact I);
        try (split; [discriminate | repeat split; fail]);
        try (split; assumption).
      split; [apply Hjoin, Hs | apply tidy_clauses, Hclauses].
  - intros Hnone. unfold UpdateStmt.String. rewrite Hnone.
    exists ("update " +:+ GetName (TableDesc.Table (UpdateStmt.Table c)) +:+ " "
            +:+ TableDesc.Alias (UpdateStmt.Table c) +:+ " set "
            +:+ Join (fold_left (fun clauseSet set => clauseSet ++ [SqlExpr_String set])
                        (UpdateStmt.Set_ c) []) ", ").
    rewrite !append_assoc. reflexivity.
Qed.

Lemma UpdateStmt_String_tidy_iff_witness :
  UpdateStmt.String update_two_sets = "update t x set a = 1, b = 2 where c > 0" /\
  tidy (UpdateStmt.String update_two_sets).
Proof.
  split; [reflexivity|].
  assert (Hset : Forall (fun e => SqlExpr_String e <> "" /\ tidy (SqlExpr_String e))
                   (UpdateStmt.Set_ update_two_sets)).
  { repeat (apply Forall_cons; split); try (apply Forall_nil; exact I);
      (split; [discriminate | repeat split]). }
  assert (Hwhere : forall w, UpdateStmt.Where update_two_sets = Some w ->
                             SqlExpr_String w <> "" /\ tidy (SqlExpr_String w)).
  { intros w [= <-]. split; [discriminate | repeat split]. }
  assert (Htable : GetName (TableDesc.Table (UpdateStmt.Table update_two_sets)) <> "")
    by discriminate.
  assert (Htidy : tidy "t") by (repeat split).
  assert (Halias : tidy "x") by (repeat split).
  apply (proj1 (UpdateStmt_String_tidy_iff update_two_sets Htable Htidy Halias Hset Hwhere)).
  split; discriminate.
Defined.

(** X10: when a Select statement is free of stray blanks. Let the table
    name, every column and a present Where clause be non-empty texts without
    leading, trailing or doubled blanks, and the alias be such a text or
    empty. Then the rendered statement has no leading, trailing or doubled
    blank exactly when the alias is not empty and there is at least one
    column; an absent Where clause is rendered as [1 = 1]. *)
Theorem SelectStmt_String_tidy_iff (c : SelectStmt.t) :
  GetName (TableDesc.Table (SelectStmt.From c)) <> "" ->
  tidy (GetName (TableDesc.Table (SelectStmt.From c))) ->
  tidy (TableDesc.Alias (SelectStmt.From c)) ->
  Forall (fun e => SqlExpr_String e <> "" /\ tidy (SqlExpr_String e)) (SelectStmt.Columns c) ->
  (forall w, SelectStmt.Where c = Some w ->
             SqlExpr_String w <> "" /\ tidy (SqlExpr_String w)) ->
  (tidy (SelectStmt.String c) <->
   TableDesc.Alias (SelectStmt.From c) <> "" /\ SelectStmt.Columns c <> []) /\
  (SelectStmt.Where c = None ->
   exists text, SelectStmt.String c = text +:+ " where 1 = 1").
Proof.
  intros Htable Htable' Halias Hcols Hwhere.
  destruct (tidy_where _ Hwhere) as [Hw Hw'].
  destruct (clauses_not_empty _ Hcols) as [Hclauses Hjoin].
  split.
  - rewrite SelectStmt_String_tokens. split.
    + intros (_ & _ & Hd). split.
      * intros Ha. rewrite Ha in Hd. refute_by_empty_token Hd 4.
      * intros Hs. rewrite Hs in Hd.
        cbn [map] in Hd. change (Join [] ", ") with "" in Hd.
        refute_by_empty_token Hd 1.
    + intros [Ha Hs]. apply tidy_Join.
      repeat (apply Forall_cons; split); try (apply Forall_nil; exact I);
        try (split; [discriminate | repeat split; fail]);
        try (split; assumption).
      split; [apply Hjoin, Hs | apply tidy_clauses, Hclauses].
  - intros Hnone. unfold SelectStmt.String. rewrite Hnone.
    exists ("select "
            +:+ Join (fold_left (fun clauseColumns col => clauseColumns ++ [SqlExpr_String col])
                        (SelectStmt.Columns c) []) ", "
            +:+ " from " +:+ GetName (TableDesc.Table (SelectStmt.From c)) +:+ " "
            +:+ TableDesc.Alias (SelectStmt.From c)).
    rewrite !append_assoc. reflexivity.
Qed.

Lemma SelectStmt_String_tidy_iff_witness :
  SelectStmt.String select_with_alias = "select a, b from t x where 1 = 1" /\
  tidy (SelectStmt.String select_with_alias).
Proof.
  split; [reflexivity|].
  assert (Hcols : Forall (fun e => SqlExpr_String e <> "" /\ tidy (SqlExpr_String e))
                    (SelectStmt.Columns select_with_alias)).
  { repeat (apply Forall_cons; split); try (apply Forall_nil; exact I);
      (split; [discriminate | repeat split]). }
  assert (Hwhere : forall w, SelectStmt.Where select_with_alias = Some w ->
                             SqlExpr_String w <> "" /\ tidy (SqlExpr_String w)).
  { intros w H. discriminate H. }
  assert (Htable : GetName (TableDesc.Table (SelectStmt.From select_with_alias)) <> "")
    by discriminate.
  assert (Htidy : tidy "t") by (repeat split).
  assert (Halias : tidy "x") by (repeat split).
  apply (proj1 (SelectStmt_String_tidy_iff select_with_alias Htable Htidy Halias Hcols Hwhere)).
  split; discriminate.
Defined.

(** ** Insert, its conflict fragment, and Alter *)

Lemma endsWithSpace_suffix (a b : string) :
  endsWithSpace b = true -> endsWithSpace (a +:+ b) = true.
Proof.
  intros H. rewrite endsWithSpace_app; [exact H|].
  intros ->. discriminate H.
Qed.

Lemma InsertStmt_String_text (c : InsertStmt.t) (order : list (string * SqlExpr)) :
  InsertStmt.String c order =
  "insert into " +:+ GetName (TableDesc.Table (InsertStmt.Table c))
  +:+ " (" +:+ Join order.*1 ", "
  +:+ ") values (" +:+ Join (SqlExpr_String ∘ snd <$> order) ", "
  +:+ ") " +:+ OnConflict.String (InsertStmt.OnConflict c).
Proof.
  unfold InsertStmt.String. rewrite InsertStmt_lists_eq.
  generalize (OnConflict.String (InsertStmt.OnConflict c)). intros oc.
  rewrite <- (append_empty_r oc) at 2. reflexivity.
Qed.

(** X11: the conflict fragment and the end of an Insert statement. The
    fragment renders as the empty text exactly when it is absent; every
    render of an Insert statement without the fragment ends with a blank,
    and a render of one with the fragment ends with the fragment's text. *)
Theorem InsertStmt_String_ending (c : InsertStmt.t) (order : list (string * SqlExpr)) :
  (forall oc, OnConflict.String oc = "" <-> oc = None) /\
  (InsertStmt.OnConflict c = None -> endsWithSpace (InsertStmt.String c order) = true) /\
  (forall oc, InsertStmt.OnConflict c = Some oc ->
     endsWithSpace (InsertStmt.String c order) =
     endsWithSpace (OnConflict.String (Some oc))).
Proof.
  split; [|split].
  - intros [oc|]; split; try reflexivity; intros H; discriminate H.
  - intros Hnone. rewrite InsertStmt_String_text, Hnone.
    cbn [OnConflict.String]. rewrite append_empty_r.
    repeat (apply endsWithSpace_suffix). reflexivity.
  - intros oc Hsome. rewrite InsertStmt_String_text, Hsome.
    assert (Hne : OnConflict.String (Some oc) <> "") by discriminate.
    repeat (rewrite endsWithSpace_app by (repeat apply app_not_empty_r; exact Hne)).
    reflexivity.
Qed.

Lemma InsertStmt_String_ending_witness :
  InsertStmt.OnConflict insert_one_field = None /\
  endsWithSpace (InsertStmt.String insert_one_field [("a", mkExpr OtherExpr "1" [])]) = true.
Proof.
  split; [reflexivity|].
  exact (proj1 (proj2 (InsertStmt_String_ending insert_one_field _)) eq_refl).
Defined.

(** X12: an Insert statement with no fields has a single render, with two
    empty pairs of parentheses, followed by the conflict fragment. *)
Theorem InsertStmt_no_fields (c : InsertStmt.t) (text : string) :
  InsertStmt.Insert c = ∅ ->
  (InsertStmt.renders c text <->
   text = "insert into " +:+ GetName (TableDesc.Table (InsertStmt.Table c))
          +:+ " () values () " +:+ OnConflict.String (InsertStmt.OnConflict c)).
Proof.
  intros Hempty. unfold InsertStmt.renders, InsertStmt.rangeOrder.
  rewrite Hempty, map_to_list_empty. split.
  - intros (order & Ho & <-). apply Permutation_nil_r in Ho. subst order.
    apply InsertStmt_String_text.
  - intros ->. exists []. split; [reflexivity|]. apply InsertStmt_String_text.
Qed.

Lemma InsertStmt_no_fields_witness :
  InsertStmt.Insert insert_nothing = ∅ /\
  InsertStmt.renders insert_nothing
    "insert into t () values () on conflict (id) do update set a = 1".
Proof.
  split; [reflexivity|].
  apply (proj2 (InsertStmt_no_fields insert_nothing _ eq_refl)). reflexivity.
Defined.

(** X13: what a rendered Alter statement is, and how it ends. With its
    sub-expression present the text is [alter], the target noun, the name and
    the sub-expression's text, each followed by one blank but the last; so an
    empty sub-expression text leaves a trailing blank, and otherwise the text
    ends as the sub-expression's text does. *)
Theorem AlterStmt_String_text (c : AlterStmt.t) (alter : SqlExpr) :
  AlterStmt.Alter c = Some alter ->
  exists text,
    AlterStmt.String c = Returned text /\
    text = "alter " +:+ SqlTarget_String (AlterStmt.Target c) +:+ " "
           +:+ GetName (AlterStmt.Name c) +:+ " " +:+ SqlExpr_String alter /\
    endsWithSpace text =
      (if decide (SqlExpr_String alter = "") then true
       else endsWithSpace (SqlExpr_String alter)).
Proof.
  intros Ha. unfold AlterStmt.String. rewrite Ha.
  generalize (SqlExpr_String alter). intros body.
  eexists. split; [reflexivity|].
  assert (Htext : Sprintf "alter %s %s %s"
                    [SqlTarget_String (AlterStmt.Target c); GetName (AlterStmt.Name c); body] =
                  "alter " +:+ SqlTarget_String (AlterStmt.Target c) +:+ " "
                  +:+ GetName (AlterStmt.Name c) +:+ " " +:+ body).
  { rewrite <- (append_empty_r body) at 2. reflexivity. }
  split; [exact Htext|]. rewrite Htext.
  destruct (decide (body = "")) as [->|Hb].
  - rewrite append_empty_r. repeat (apply endsWithSpace_suffix). reflexivity.
  - repeat (rewrite endsWithSpace_app by (repeat apply app_not_empty_r; exact Hb)).
    reflexivity.
Qed.

Lemma AlterStmt_String_text_witness :
  AlterStmt.Alter alter_add_column = Some add_column_f /\
  AlterStmt.String alter_add_column = Returned "alter table s.o add column f text".
Proof.
  split; [reflexivity|].
  destruct (AlterStmt_String_text alter_add_column add_column_f eq_refl)
    as (text & Hs & Ht & _).
  rewrite Hs, Ht. reflexivity.
Defined.

(** ** Which solved keys an Insert statement's edge can meet *)

(** X14: the edge an Insert statement depends on has an empty schema, so a
    key solved by a Create or an Alter statement equals it only when that
    statement's Name resolves to the empty schema, to the insert target's
    name as object, and the key has no field; a statement whose Name
    resolves to a non-empty schema never satisfies an Insert's dependency. *)
Theorem insert_edge_meets_only_blank_schema
    (i : InsertStmt.t) (a : AlterStmt.t) (c : CreateStmt.t)
    (deps : Dependencies) (d : NamedObject) :
  d ∈ InsertStmt.dependedOn i ->
  d ∈ deps ->
  (CreateStmt.solved c = Returned deps ->
   resolveName (CreateStmt.Target c) (CreateStmt.Name c) =
     Returned ("", GetName (TableDesc.Table (InsertStmt.Table i)))) /\
  (AlterStmt.solved a = Returned deps ->
   resolveName (AlterStmt.Target a) (AlterStmt.Name a) =
     Returned ("", GetName (TableDesc.Table (InsertStmt.Table i))) /\
   addedField (AlterStmt.Alter a) = "").
Proof.
  intros Hi Hd. apply list_elem_of_singleton in Hi. subst d. split.
  - destruct (resolveName (CreateStmt.Target c) (CreateStmt.Name c)) as [[s o]|m] eqn:Hr.
    + rewrite (CreateStmt_solved_keys c s o Hr). intros [= <-].
      apply elem_of_cons in Hd as [Hd|Hd].
      * injection Hd as <- <-. reflexivity.
      * destruct (CreateStmt.Create c) as [[[ | fields | ] ? ?]|];
          try (apply elem_of_nil in Hd; contradiction).
        apply list_elem_of_In, in_map_iff in Hd as (f & Hf & _).
        injection Hf as <- <- _. reflexivity.
    + rewrite CreateStmt_solved_resolve, Hr. discriminate.
  - rewrite AlterStmt_solved_resolve.
    destruct (resolveName (AlterStmt.Target a) (AlterStmt.Name a)) as [[s o]|m];
      [|discriminate].
    intros [= <-]. apply list_elem_of_singleton in Hd.
    injection Hd as <- <- <-. split; reflexivity.
Qed.

Lemma insert_edge_meets_only_blank_schema_witness :
  mkNamedObject "" "users" "" ∈ InsertStmt.dependedOn insert_public_users /\
  mkNamedObject "" "users" "" ∈ [mkNamedObject "" "users" ""] /\
  CreateStmt.solved create_blank_schema_users = Returned [mkNamedObject "" "users" ""] /\
  resolveName (CreateStmt.Target create_blank_schema_users)
    (CreateStmt.Name create_blank_schema_users) = Returned ("", "users").
Proof.
  assert (H : mkNamedObject "" "users" "" ∈ [mkNamedObject "" "users" ""])
    by apply list_elem_of_here.
  split; [exact H|]. split; [exact H|]. split; [reflexivity|].
  exact (proj1 (insert_edge_meets_only_blank_schema insert_public_users
                  alter_add_column create_blank_schema_users _ _ H H) eq_refl).
Defined.
